(** * User-lookup microservice: admission filter, REST and GraphQL surfaces

    A shallow embedding of the executable core of the Express application:
    [domainRestriction] (middleware/domainRestriction.ts), [errorHandler] and
    [ApiError] (middleware/errorHandler.ts), [UserService] (services/userService.ts),
    the [/users/:id] route (routes/userRoutes.ts), the GraphQL resolver
    (graphql/resolvers.ts), the [App] singleton (app/App.ts) and [bootstrap]
    (index.ts).

    JavaScript strings are sequences of UTF-16 code units; they are modelled as
    [list N], one number per code unit.  Handlers run in a small monad that
    threads the console / database call log and models [throw]. *)

From Stdlib Require Import NArith ZArith List Bool String Ascii Lia.
From stdpp Require Import base option list gmap pretty.
Import ListNotations.

Set Warnings "-register-all".

Local Open Scope list_scope.
Local Open Scope Z_scope.

(* ===================================================================== *)
(** ** JavaScript strings *)

Abbreviation jsstring := (list N).

Module JsString.

(** A string literal of the source, as code units. *)
Definition str (s : string) : jsstring :=
  List.map N_of_ascii (list_ascii_of_string s).

(** [a === b] on strings. *)
Fixpoint strictEq (a b : jsstring) : bool :=
  match a, b with
  | [], [] => true
  | c :: a', d :: b' => N.eqb c d && strictEq a' b'
  | _, _ => false
  end.

(** [s.startsWith(p)]. *)
Fixpoint startsWith (s p : jsstring) {struct p} : bool :=
  match p, s with
  | [], _ => true
  | _ :: _, [] => false
  | c :: p', d :: s' => N.eqb c d && startsWith s' p'
  end.

(** [s.endsWith(p)]. *)
Definition endsWith (s p : jsstring) : bool :=
  startsWith (rev s) (rev p).

(** [s.includes(p)]: [p] occurs at some position of [s]. *)
Fixpoint includes (s p : jsstring) : bool :=
  startsWith s p ||
  match s with
  | [] => false
  | _ :: s' => includes s' p
  end.

(** The code units removed by [String.prototype.trim]: ECMAScript's
    WhiteSpace (TAB, VT, FF, SP, NBSP, ZWNBSP and the Unicode space
    separators) and LineTerminator (LF, CR, LS, PS). *)
Definition isWhiteSpace (c : N) : bool :=
  ((9 <=? c) && (c <=? 13) ||
   (c =? 32) || (c =? 160) || (c =? 5760) ||
   (8192 <=? c) && (c <=? 8202) ||
   (c =? 8232) || (c =? 8233) || (c =? 8239) || (c =? 8287) ||
   (c =? 12288) || (c =? 65279))%N.

Fixpoint trimStart (s : jsstring) : jsstring :=
  match s with
  | [] => []
  | c :: s' => if isWhiteSpace c then trimStart s' else s
  end.

Definition trimEnd (s : jsstring) : jsstring :=
  rev (trimStart (rev s)).

(** [s.trim()]. *)
Definition trim (s : jsstring) : jsstring :=
  trimEnd (trimStart s).

(** [!s] for a string: only the empty string is falsy. *)
Definition falsy (s : jsstring) : bool :=
  match s with [] => true | _ => false end.

(** [h || ''] for an optional header value. *)
Definition orEmpty (h : option jsstring) : jsstring :=
  match h with
  | Some s => if falsy s then [] else s
  | None => []
  end.

End JsString.
Import JsString.

(* ===================================================================== *)
(** ** JSON values, errors, responses *)

Inductive Json : Type :=
| JNull
| JString (s : jsstring)
| JArray (items : list Json)
| JObject (fields : list (jsstring * Json)).

(** Thrown values.  [ApiError] instances carry a status code; [name] is an
    own property set by the constructor, and [errorHandler] reads it back. *)
Inductive JsError : Type :=
| ApiError (statusCode : Z) (name message : jsstring)
| Error (name message : jsstring).

(** [new ApiError(statusCode, message)]. *)
Definition new_ApiError (statusCode : Z) (message : jsstring) : JsError :=
  ApiError statusCode (str "ApiError") message.

(** [new Error(message)]. *)
Definition new_Error (message : jsstring) : JsError :=
  Error (str "Error") message.

Definition err_name (e : JsError) : jsstring :=
  match e with ApiError _ n _ => n | Error n _ => n end.

Definition err_message (e : JsError) : jsstring :=
  match e with ApiError _ _ m => m | Error _ m => m end.


(** A response as it goes out; [body] is [None] when none is sent. *)
Record Response : Type := MkResponse { status : Z; body : option Json }.

(** The response of [res.status(status).json(b)] at a status that carries
    a body, and of [res.json(b)] at the default status. *)
Definition mkResponse (status : Z) (b : Json) : Response :=
  MkResponse status (Some b).

(** What a middleware did with the request: [next()], [next(err)], or a
    response sent with [res.status(..).json(..)]. *)
Inductive Step : Type :=
| Next
| NextErr (e : JsError)
| Sent (r : Response).

(* ===================================================================== *)
(** ** Effects: the log of observable calls, and exceptions *)

Inductive Event : Type :=
| ConsoleError (args : list jsstring)      (* console.error(...) *)
| FindUnique (where_id : jsstring).        (* prisma.user.findUnique({where:{id}}) *)

Inductive Completion (A : Type) : Type :=
| Normal (a : A)
| Throw (e : JsError).
Arguments Normal {A} a.
Arguments Throw {A} e.

Definition M (A : Type) : Type := list Event -> Completion A * list Event.

Definition ret {A} (a : A) : M A := fun t => (Normal a, t).

Definition throw {A} (e : JsError) : M A := fun t => (Throw e, t).

Definition bind {A B} (m : M A) (k : A -> M B) : M B :=
  fun t =>
    match m t with
    | (Normal a, t') => k a t'
    | (Throw e, t') => (Throw e, t')
    end.

(** [try { m } catch (error) { h error }]. *)
Definition try_catch {A} (m : M A) (h : JsError -> M A) : M A :=
  fun t =>
    match m t with
    | (Normal a, t') => (Normal a, t')
    | (Throw e, t') => h e t'
    end.

Definition emit (e : Event) : M unit := fun t => (Normal tt, t ++ [e]).

Notation "'do' x <- m ; k" := (bind m (fun x => k))
  (at level 10, x name, m at level 100, k at level 200).

(** Run a computation from an empty log. *)
Definition exec {A} (m : M A) : Completion A * list Event := m [].

(* ===================================================================== *)
(** ** Requests *)

(** The three headers the admission filter reads; [None] is an absent
    header ([undefined]). *)
Record Headers : Type := mkHeaders {
  host : option jsstring;
  origin : option jsstring;
  referer : option jsstring
}.

(** The fields a GraphQL query may select on [User]. *)
Inductive UserField : Type := field_id | field_name.

(** The operation [{ user(id: ...) { <selection> } }] carried by a
    GraphQL request; [id : String!] is a string by the schema.  Only
    operations that select the [user] field once are described. *)
Record UserArgs : Type := mkUserArgs { args_id : jsstring }.
Record UserQuery : Type := mkUserQuery {
  args : UserArgs;
  selection : list UserField
}.

(** Which registered path and method the request's URL and verb match.
    Path matching is Express's; the model starts from its result, with the
    decoded route parameter in [req.params.id]. *)
Inductive Target : Type :=
| GET_users_id (params_id : jsstring)     (* GET /users/:id *)
| GET_health                              (* GET /health *)
| Any_api_docs                            (* /api-docs *)
| Any_graphql (q : UserQuery)             (* /graphql *)
| Unrouted.                               (* anything else *)

Record Request : Type := mkRequest {
  headers : Headers;
  target : Target
}.

(* ===================================================================== *)
(** ** middleware/domainRestriction.ts *)

Definition allowedHosts : list jsstring :=
  [ str "example.com";
    str "www.example.com";
    str "localhost:3000";
    str "127.0.0.1:3000" ].

Definition isAllowedHost (allowedHosts : list jsstring) (host : jsstring) : bool :=
  existsb
    (fun allowed => strictEq host allowed || endsWith host (str "." ++ allowed))
    allowedHosts.

Definition isAllowedOrigin (allowedHosts : list jsstring) (origin : jsstring) : bool :=
  existsb
    (fun allowed =>
       includes origin allowed ||
       strictEq origin (str "http://" ++ allowed) ||
       strictEq origin (str "https://" ++ allowed))
    allowedHosts.

Definition isAllowedReferer (allowedHosts : list jsstring) (referer : jsstring) : bool :=
  existsb
    (fun allowed =>
       includes referer allowed ||
       startsWith referer (str "http://" ++ allowed) ||
       startsWith referer (str "https://" ++ allowed))
    allowedHosts.

Definition forbidden : Response :=
  mkResponse 403
    (JObject
       [ (str "error", JString (str "Forbidden"));
         (str "message",
          JString (str "Access denied. This API only accepts traffic from example.com or localhost:3000.")) ]).

Definition domainRestriction (req : Request) : M Step :=
  let host := orEmpty (host (headers req)) in
  let origin := orEmpty (origin (headers req)) in
  let referer := orEmpty (referer (headers req)) in
  if isAllowedHost allowedHosts host
     || isAllowedOrigin allowedHosts origin
     || isAllowedReferer allowedHosts referer
  then ret Next
  else ret (Sent forbidden).

(* ===================================================================== *)
(** ** middleware/errorHandler.ts *)

Definition internalServerError : Response :=
  mkResponse 500
    (JObject
       [ (str "error", JString (str "Internal Server Error"));
         (str "message", JString (str "An unexpected error occurred")) ]).

(** What Node throws when asked to write a status outside 100..999. *)
Definition invalid_status_code (code : Z) : JsError :=
  Error (str "RangeError") (str "Invalid status code: " ++ str (pretty code)).

(** The statuses that go out without a body: the informational ones
    (Node), and 204, 205 and 304 (Express's [res.send]). *)
Definition bodiless (code : Z) : bool :=
  (code <? 200) || (code =? 204) || (code =? 205) || (code =? 304).

(** [res.status(code).json(b)] at an arbitrary integer [code]. *)
Definition res_status_json (code : Z) (b : Json) : M Step :=
  if (code <? 100) || (999 <? code) then throw (invalid_status_code code)
  else if bodiless code then ret (Sent (MkResponse code None))
  else ret (Sent (mkResponse code b)).

Definition errorHandler (err : JsError) : M Step :=
  do _ <- emit (ConsoleError [str "Error:"; err_message err]);
  match err with
  | ApiError statusCode name message =>
      res_status_json statusCode
        (JObject [ (str "error", JString name);
                   (str "message", JString message) ])
  | Error _ _ => ret (Sent internalServerError)
  end.

(* ===================================================================== *)
(** ** services/userService.ts *)

Record User : Type := mkUser { id : jsstring; name : jsstring }.

(** The Prisma client as the service sees it: the [User] table, keyed by
    its primary key [id] and holding [name], and the data-access failures a
    query may run into ([fault id] is the error [findUnique] rejects with
    for that key, if any). *)
Record PrismaClient : Type := mkPrisma {
  user : gmap (list N) (list N);
  fault : jsstring -> option JsError
}.

(** The client rejects with errors of Prisma's own classes, never with the
    application's [ApiError]: of a fault the query throws the name and the
    message as a plain error. *)
Definition store_error (e : JsError) : JsError :=
  Error (err_name e) (err_message e).

(** [prisma.user.findUnique({ where: { id } })]. *)
Definition findUnique (prisma : PrismaClient) (where_id : jsstring) : M (option User) :=
  do _ <- emit (FindUnique where_id);
  match fault prisma where_id with
  | Some e => throw (store_error e)
  | None =>
      ret (match user prisma !! where_id with
           | Some n => Some (mkUser where_id n)
           | None => None
           end)
  end.

Module UserService.

Definition findById (prisma : PrismaClient) (id : jsstring) : M (option User) :=
  findUnique prisma id.

End UserService.

(** [res.json(user)]: the record as a JSON object. *)
Definition json_of_user (u : User) : Json :=
  JObject [ (str "id", JString (id u)); (str "name", JString (name u)) ].

(* ===================================================================== *)
(** ** routes/userRoutes.ts *)

(** [typeof id] for a value of TypeScript type [string]. *)
Definition typeof (s : jsstring) : string := "string".

Definition validateUserId (params_id : jsstring) : M Step :=
  let id := params_id in
  if falsy id
     || negb (String.eqb (typeof id) "string")
     || Nat.eqb (length (trim id)) 0
  then ret (NextErr (new_ApiError 400 (str "Invalid user ID provided")))
  else ret Next.

(** The [async (req, res, next) => { try { ... } catch (error) { next(error) } }]
    handler of [GET /:id]. *)
Definition getUserById (prisma : PrismaClient) (params_id : jsstring) : M Step :=
  try_catch
    (let id := params_id in
     do user <- UserService.findById prisma id;
     match user with
     | None =>
         ret (Sent (mkResponse 404
                      (JObject
                         [ (str "error", JString (str "Not Found"));
                           (str "message",
                            JString (str "User with ID '" ++ id ++ str "' not found")) ])))
     | Some u => ret (Sent (mkResponse 200 (json_of_user u)))
     end)
    (fun error => ret (NextErr error)).

(** [router.get('/:id', validateUserId, handler)]; requests matching no
    route of the router leave it through [next()]. *)
Definition userRoutes (prisma : PrismaClient) (req : Request) : M Step :=
  match target req with
  | GET_users_id params_id =>
      do s <- validateUserId params_id;
      match s with
      | Next => getUserById prisma params_id
      | NextErr e => ret (NextErr e)
      | Sent r => ret (Sent r)
      end
  | _ => ret Next
  end.

(* ===================================================================== *)
(** ** graphql/resolvers.ts *)

Module resolvers.
Module Query.

Definition user (prisma : PrismaClient) (args : UserArgs) : M (option User) :=
  let id := args_id args in
  if falsy id
     || negb (String.eqb (typeof id) "string")
     || Nat.eqb (length (trim id)) 0
  then throw (new_Error (str "Invalid user ID provided"))
  else UserService.findById prisma id.

End Query.
End resolvers.

(** *** The GraphQL server around the resolver

    [expressMiddleware(apolloServer)] executes the operation and answers
    with status 200 and the protocol's response map: [data] holds the value
    of the nullable field [user]; an [errors] entry is present exactly when
    the resolver threw, one entry per error carrying its [message] (the
    entry's [locations], [path] and [extensions] are left out of the
    model). *)

Definition select_field (u : User) (f : UserField) : jsstring * Json :=
  match f with
  | field_id => (str "id", JString (id u))
  | field_name => (str "name", JString (name u))
  end.

Definition data_of (sel : list UserField) (r : option User) : Json :=
  JObject
    [ (str "user",
       match r with
       | Some u => JObject (List.map (select_field u) sel)
       | None => JNull
       end) ].

Definition executeOperation (prisma : PrismaClient) (q : UserQuery) : M Json :=
  try_catch
    (do r <- resolvers.Query.user prisma (args q);
     ret (JObject [ (str "data", data_of (selection q) r) ]))
    (fun e =>
       ret (JObject
              [ (str "errors",
                 JArray [ JObject [ (str "message", JString (err_message e)) ] ]);
                (str "data", data_of (selection q) None) ])).

Definition apolloMiddleware (prisma : PrismaClient) (req : Request) : M Step :=
  match target req with
  | Any_graphql q =>
      do b <- executeOperation prisma q;
      ret (Sent (mkResponse 200 b))
  | _ => ret Next
  end.

(* ===================================================================== *)
(** ** app/App.ts: the middleware stack and its dispatch *)

(** One entry of the Express stack per [use] / [get] call of the source. *)
Inductive Layer : Type :=
| use_json                 (* use(json()) *)
| use_domainRestriction    (* use(domainRestriction) *)
| use_api_docs             (* use('/api-docs', swaggerUi.serve, swaggerUi.setup(..)) *)
| use_users                (* use('/users', userRoutes) *)
| get_health               (* get('/health', ...) *)
| use_errorHandler         (* use(errorHandler) *)
| use_graphql.             (* use('/graphql', json(), domainRestriction, expressMiddleware(..)) *)

(** What a request handler reads from outside the request. *)
Record Env : Type := mkEnv {
  prisma : PrismaClient;
  now_ISO : jsstring;            (* new Date().toISOString() *)
  swagger_page : Response        (* what swagger-ui serves *)
}.

Definition health (env : Env) : Response :=
  mkResponse 200
    (JObject [ (str "status", JString (str "healthy"));
               (str "timestamp", JString (now_ISO env)) ]).

(** Handlers given to one [use] call run in order until one does not call
    [next()]. *)
Fixpoint chain (hs : list (Request -> M Step)) (req : Request) : M Step :=
  match hs with
  | [] => ret Next
  | h :: hs' =>
      do s <- h req;
      match s with
      | Next => chain hs' req
      | NextErr e => ret (NextErr e)
      | Sent r => ret (Sent r)
      end
  end.

(** What [express.json()] makes of the body of a request: it reads it, or
    finds none to read, and calls [next()]; or it refuses it (malformed
    JSON, a body too large, an unsupported encoding) and calls [next(err)]
    with an error of its own, which is no [ApiError]. *)
Inductive BodyParse : Type :=
| body_accepted
| body_refused (name message : jsstring).

(** [json()], first in the stack.  It fills [req.body], which no handler
    described here reads. *)
Definition json (b : BodyParse) (req : Request) : M Step :=
  match b with
  | body_accepted => ret Next
  | body_refused name message => ret (NextErr (Error name message))
  end.

(** [json()] given again to [use('/graphql', ...)]: the body has been read
    by then, and the parser only calls [next()]. *)
Definition json_again (req : Request) : M Step := ret Next.

(** A layer applied to a request.  With an error pending only the
    four-argument error middleware runs; without one it is skipped. *)
Definition handle (env : Env) (b : BodyParse) (l : Layer)
    (pending : option JsError) (req : Request) : M Step :=
  match pending, l with
  | Some err, use_errorHandler => errorHandler err
  | Some err, _ => ret (NextErr err)
  | None, use_errorHandler => ret Next
  | None, use_json => json b req
  | None, use_domainRestriction => domainRestriction req
  | None, use_api_docs =>
      match target req with
      | Any_api_docs => ret (Sent (swagger_page env))
      | _ => ret Next
      end
  | None, use_users => userRoutes (prisma env) req
  | None, get_health =>
      match target req with
      | GET_health => ret (Sent (health env))
      | _ => ret Next
      end
  | None, use_graphql =>
      match target req with
      | Any_graphql _ =>
          chain [json_again; domainRestriction; apolloMiddleware (prisma env)] req
      | _ => ret Next
      end
  end.

(** The end of a request: a response was sent, or the stack ran out and
    Express's own final handler answers (with the pending error, if any). *)
Inductive Outcome : Type :=
| Responded (r : Response)
| Unanswered (pending : option JsError).

Fixpoint dispatch (env : Env) (b : BodyParse) (stack : list Layer)
    (pending : option JsError) (req : Request) : M Outcome :=
  match stack with
  | [] => ret (Unanswered pending)
  | l :: rest =>
      do s <- handle env b l pending req;
      match s with
      | Next => dispatch env b rest None req
      | NextErr e => dispatch env b rest (Some e) req
      | Sent r => ret (Responded r)
      end
  end.

(* ===================================================================== *)
(** ** app/App.ts: the singleton, and index.ts *)

(** The state of the Node process that the [App] class touches: the static
    field [App.instance], the objects built by [new App()] (each one owns
    the stack of its Express application), whether [swagger.yaml] loads,
    and the port passed to [listen]. *)
Record Process : Type := mkProcess {
  App_instance : option nat;
  heap : gmap nat (list Layer);
  allocated : nat;
  swagger_yaml : bool;
  listening : option Z
}.

Module App.

(** [this._app.use(...)] / [this._app.get(...)]: append a layer to the
    stack of the object [this]. *)
Definition use (this : nat) (l : Layer) (p : Process) : Process :=
  mkProcess (App_instance p) (alter (fun st => st ++ [l]) this (heap p))
    (allocated p) (swagger_yaml p) (listening p).

Definition initializeMiddleware (this : nat) (p : Process) : Process :=
  use this use_domainRestriction (use this use_json p).

Definition initializeRoutes (this : nat) (p : Process) : Process :=
  let p1 := if swagger_yaml p then use this use_api_docs p else p in
  use this get_health (use this use_users p1).

Definition initializeErrorHandling (this : nat) (p : Process) : Process :=
  use this use_errorHandler p.

(** [new App()]: a fresh object with an empty Express stack, then the
    three initialisation steps. *)
Definition constructor (p : Process) : nat * Process :=
  let this := allocated p in
  let p0 := mkProcess (App_instance p) (<[this := []]> (heap p))
              (S (allocated p)) (swagger_yaml p) (listening p) in
  (this,
   initializeErrorHandling this (initializeRoutes this (initializeMiddleware this p0))).

Definition getInstance (p : Process) : nat * Process :=
  match App_instance p with
  | None =>
      let (inst, p') := constructor p in
      (inst,
       mkProcess (Some inst) (heap p') (allocated p') (swagger_yaml p') (listening p'))
  | Some inst => (inst, p)
  end.

(** The [app] accessor: the Express stack of an instance. *)
Definition app (this : nat) (p : Process) : list Layer :=
  default [] (heap p !! this).

Definition listen (port : Z) (p : Process) : Process :=
  mkProcess (App_instance p) (heap p) (allocated p) (swagger_yaml p) (Some port).

End App.

Definition PORT : Z := 3000.

(** index.ts, [bootstrap]. *)
Definition bootstrap (p : Process) : Process :=
  let (appInstance, p1) := App.getInstance p in
  let expressApp := appInstance in
  let p2 := App.use expressApp use_graphql p1 in
  App.listen PORT p2.

(** A process at start-up: nothing constructed yet. *)
Definition start (swagger_yaml : bool) : Process :=
  mkProcess None ∅ 0 swagger_yaml None.

(** The stack that serves requests in a process. *)
Definition serving (p : Process) : list Layer :=
  match App_instance p with
  | Some inst => App.app inst p
  | None => []
  end.

(** The running server: a request, and what [json()] makes of its body,
    handled by the bootstrapped stack. *)
Definition http_server (swagger_yaml : bool) (env : Env) (b : BodyParse)
    (req : Request) : M Outcome :=
  dispatch env b (serving (bootstrap (start swagger_yaml))) None req.

(** The server on a request whose body [json()] lets through. *)
Definition server (swagger_yaml : bool) (env : Env) (req : Request) : M Outcome :=
  http_server swagger_yaml env body_accepted req.

(* ===================================================================== *)
(** ** The properties, in the specification's words *)

(** The allow rule of the admission filter, over a list of allowed
    entries: (a) on the Host header, (b) on Origin, (c) on Referer. *)
Definition host_rule (allowed : list jsstring) (h : jsstring) : Prop :=
  exists a, In a allowed /\ (h = a \/ exists l, h = l ++ str "." ++ a).

Definition origin_rule (allowed : list jsstring) (o : jsstring) : Prop :=
  exists a, In a allowed /\
    ((exists l r, o = l ++ a ++ r) \/
     o = str "http://" ++ a \/ o = str "https://" ++ a).

Definition referer_rule (allowed : list jsstring) (rf : jsstring) : Prop :=
  exists a, In a allowed /\
    ((exists l r, rf = l ++ a ++ r) \/
     (exists r, rf = (str "http://" ++ a) ++ r) \/
     (exists r, rf = (str "https://" ++ a) ++ r)).

(** A header as the rule reads it: an absent header is the empty string. *)
Definition header_text (h : option jsstring) : jsstring :=
  match h with
  | Some s => s
  | None => []
  end.

(** The entries the filter is configured with. *)
Definition configured_hosts : list jsstring :=
  [ str "example.com"; str "www.example.com";
    str "localhost:3000"; str "127.0.0.1:3000" ].

Definition allow_rule (req : Request) : Prop :=
  host_rule configured_hosts (header_text (host (headers req))) \/
  origin_rule configured_hosts (header_text (origin (headers req))) \/
  referer_rule configured_hosts (header_text (referer (headers req))).

(** The same decision as the source computes it. *)
Definition admits (req : Request) : bool :=
  isAllowedHost allowedHosts (orEmpty (host (headers req)))
  || isAllowedOrigin allowedHosts (orEmpty (origin (headers req)))
  || isAllowedReferer allowedHosts (orEmpty (referer (headers req))).

(** An id made of white space only (the empty id included). *)
Definition blank (id : jsstring) : Prop :=
  Forall (fun c => isWhiteSpace c = true) id.

(** A valid id: present, and non-empty after trimming. *)
Definition valid_id (id : jsstring) : Prop :=
  id <> [] /\ trim id <> [].

Definition invalid_id_message : jsstring := str "Invalid user ID provided".

(** [n] consecutive calls of [App.getInstance]: the instances returned,
    in order, and the process afterwards. *)
Fixpoint getInstance_times (n : nat) (p : Process) : list nat * Process :=
  match n with
  | O => ([], p)
  | S n' =>
      let (inst, p1) := App.getInstance p in
      let (insts, p2) := getInstance_times n' p1 in
      (inst :: insts, p2)
  end.

(** The stack the constructor builds, in registration order. *)
Definition constructed_stack (swagger_yaml : bool) : list Layer :=
  [use_json; use_domainRestriction]
  ++ (if swagger_yaml then [use_api_docs] else [])
  ++ [use_users; get_health; use_errorHandler].

(** Sample data: the seeded table of prisma/seed.ts. *)
Definition seeded : PrismaClient :=
  mkPrisma
    (<[str "user1" := str "John Doe"]>
       (<[str "user2" := str "Jane Smith"]>
          (<[str "user3" := str "Bob Wilson"]> ∅)))
    (fun _ => None).

Definition sample_env : Env :=
  mkEnv seeded (str "2024-01-01T00:00:00.000Z") (mkResponse 200 JNull).

Definition request_from (h o r : string) (t : Target) : Request :=
  mkRequest (mkHeaders (Some (str h)) (Some (str o)) (Some (str r))) t.

(* ===================================================================== *)
(** ** prisma/seed.ts *)

Module seed.

(** The three records [main] creates, in source order. *)
Definition data : list User :=
  [ mkUser (str "user1") (str "John Doe");
    mkUser (str "user2") (str "Jane Smith");
    mkUser (str "user3") (str "Bob Wilson") ].

(** What [create] rejects with when the primary key is taken (Prisma's
    error P2002, its message abridged). *)
Definition unique_violation : JsError :=
  Error (str "PrismaClientKnownRequestError")
    (str "Unique constraint failed on the fields: (`id`)").

(** [prisma.user.deleteMany()]. *)
Definition deleteMany (tbl : gmap (list N) (list N)) : gmap (list N) (list N) :=
  ∅.

(** [prisma.user.create({ data })]: the row is inserted unless its [id]
    is already a key of the table. *)
Definition create (d : User) (tbl : gmap (list N) (list N))
  : Completion User * gmap (list N) (list N) :=
  match tbl !! id d with
  | Some _ => (Throw unique_violation, tbl)
  | None => (Normal d, <[id d := name d]> tbl)
  end.

(** [Promise.all] over [create] calls run in the order [ds]: every call
    runs; the whole fails if one of them does. *)
Fixpoint create_all (ds : list User) (tbl : gmap (list N) (list N))
  : Completion (list User) * gmap (list N) (list N) :=
  match ds with
  | [] => (Normal [], tbl)
  | d :: ds' =>
      let (c, tbl1) := create d tbl in
      let (cs, tbl2) := create_all ds' tbl1 in
      (match c, cs with
       | Normal u, Normal us => Normal (u :: us)
       | Throw e, _ => Throw e
       | Normal _, Throw e => Throw e
       end,
       tbl2)
  end.

Definition main (tbl : gmap (list N) (list N))
  : Completion (list User) * gmap (list N) (list N) :=
  create_all data (deleteMany tbl).

End seed.

(* ===================================================================== *)
(** ** Measures on the call log *)

Definition is_FindUnique (e : Event) : bool :=
  match e with FindUnique _ => true | ConsoleError _ => false end.

(** The number of store queries recorded in a piece of log. *)
Definition store_calls (evs : list Event) : nat :=
  length (List.filter is_FindUnique evs).

(* ===================================================================== *)
(** * Lemmas on strings *)

Section StringLemmas.

Implicit Types s p a b : jsstring.

Lemma strictEq_spec a b : strictEq a b = true <-> a = b.
Proof.
  revert b; induction a as [|c a IH]; intros [|d b]; simpl; split;
    try congruence; try reflexivity.
  - intros H. apply andb_true_iff in H as [Hc Hr].
    apply N.eqb_eq in Hc. apply IH in Hr. congruence.
  - intros H. injection H as -> ->.
    rewrite N.eqb_refl. simpl. now apply IH.
Qed.

Lemma startsWith_spec s p : startsWith s p = true <-> exists r, s = p ++ r.
Proof.
  revert s; induction p as [|c p IH]; intros s; simpl.
  - split; [intros _; now exists s | reflexivity].
  - destruct s as [|d s].
    + split; [discriminate | intros [r Hr]; discriminate].
    + rewrite andb_true_iff, N.eqb_eq, IH. split.
      * intros [-> [r ->]]. now exists r.
      * intros [r Hr]. injection Hr as -> ->. eauto.
Qed.

Lemma endsWith_spec s p : endsWith s p = true <-> exists l, s = l ++ p.
Proof.
  unfold endsWith. rewrite startsWith_spec. split.
  - intros [r Hr]. exists (rev r).
    rewrite <- (rev_involutive s), Hr, rev_app_distr, rev_involutive.
    reflexivity.
  - intros [l ->]. exists (rev l). apply rev_app_distr.
Qed.

Lemma includes_spec s p :
  includes s p = true <-> exists l r, s = l ++ p ++ r.
Proof.
  induction s as [|c s IH]; simpl.
  - rewrite orb_false_r, startsWith_spec. split.
    + intros [r Hr]. now exists [], r.
    + intros [l [r Hr]]. destruct l as [|x l]; [now exists r | discriminate].
  - rewrite orb_true_iff, startsWith_spec, IH. split.
    + intros [[r Hr] | [l [r ->]]].
      * now exists [], r.
      * now exists (c :: l), r.
    + intros [[|x l] [r Hr]].
      * left. now exists r.
      * right. injection Hr as -> ->. now exists l, r.
Qed.

Lemma trimStart_head s c r : trimStart s = c :: r -> isWhiteSpace c = false.
Proof.
  induction s as [|d s IH]; simpl; [discriminate|].
  destruct (isWhiteSpace d) eqn:Hd; [exact IH|].
  intros H. injection H as <- _. exact Hd.
Qed.

Lemma trimStart_nil s : trimStart s = [] <-> forallb isWhiteSpace s = true.
Proof.
  induction s as [|d s IH]; simpl; [tauto|].
  destruct (isWhiteSpace d); simpl; [exact IH|].
  split; discriminate.
Qed.

Lemma forallb_rev (f : N -> bool) s : forallb f (rev s) = forallb f s.
Proof.
  induction s as [|c s IH]; simpl; [reflexivity|].
  rewrite forallb_app, IH. simpl. rewrite andb_true_r. apply andb_comm.
Qed.

(** Trimming leaves nothing exactly when the string is all white space. *)
Lemma trim_nil s : trim s = [] <-> forallb isWhiteSpace s = true.
Proof.
  unfold trim, trimEnd. split.
  - intros H.
    assert (H1 : trimStart (rev (trimStart s)) = []).
    { rewrite <- (rev_involutive (trimStart _)), H. reflexivity. }
    apply trimStart_nil in H1. rewrite forallb_rev in H1.
    destruct (trimStart s) as [|c r] eqn:E.
    + now apply trimStart_nil.
    + apply trimStart_head in E. simpl in H1. rewrite E in H1. discriminate.
  - intros H. apply trimStart_nil in H. rewrite H. reflexivity.
Qed.

Lemma blank_forallb s : blank s <-> forallb isWhiteSpace s = true.
Proof. unfold blank. rewrite forallb_forall, List.Forall_forall. reflexivity. Qed.

Lemma trim_length_blank s : Nat.eqb (length (trim s)) 0 = true <-> blank s.
Proof.
  rewrite blank_forallb, <- trim_nil, Nat.eqb_eq. split.
  - intros H. now destruct (trim s).
  - intros ->. reflexivity.
Qed.

End StringLemmas.

(* ===================================================================== *)
(** * The admission filter *)

Section Admission.

Lemma isAllowedHost_spec allowed h :
  isAllowedHost allowed h = true <-> host_rule allowed h.
Proof.
  unfold isAllowedHost, host_rule. rewrite existsb_exists.
  split; intros [a [Ha H]]; exists a; split; trivial.
  - apply orb_true_iff in H as [H | H].
    + left. now apply strictEq_spec.
    + right. now apply endsWith_spec.
  - apply orb_true_iff. destruct H as [H | H].
    + left. now apply strictEq_spec.
    + right. now apply endsWith_spec.
Qed.

Lemma isAllowedOrigin_spec allowed o :
  isAllowedOrigin allowed o = true <-> origin_rule allowed o.
Proof.
  unfold isAllowedOrigin, origin_rule. rewrite existsb_exists.
  split; intros [a [Ha H]]; exists a; split; trivial.
  - rewrite !orb_true_iff, includes_spec, !strictEq_spec in H. tauto.
  - rewrite !orb_true_iff, includes_spec, !strictEq_spec. tauto.
Qed.

Lemma isAllowedReferer_spec allowed rf :
  isAllowedReferer allowed rf = true <-> referer_rule allowed rf.
Proof.
  unfold isAllowedReferer, referer_rule. rewrite existsb_exists.
  split; intros [a [Ha H]]; exists a; split; trivial.
  - rewrite !orb_true_iff, includes_spec, !startsWith_spec in H. tauto.
  - rewrite !orb_true_iff, includes_spec, !startsWith_spec. tauto.
Qed.

(** [h || ''] is the header's text, the empty string when it is absent. *)
Lemma orEmpty_header_text (h : option jsstring) : orEmpty h = header_text h.
Proof. destruct h as [[|c s]|]; reflexivity. Qed.

Lemma allowedHosts_configured : allowedHosts = configured_hosts.
Proof. reflexivity. Qed.

Lemma admits_spec req : admits req = true <-> allow_rule req.
Proof.
  unfold admits, allow_rule.
  rewrite !orb_true_iff, isAllowedHost_spec, isAllowedOrigin_spec,
    isAllowedReferer_spec, !orEmpty_header_text, allowedHosts_configured.
  tauto.
Qed.

Lemma admits_false req : admits req = false <-> ~ allow_rule req.
Proof.
  rewrite <- admits_spec. destruct (admits req); split; congruence.
Qed.

Lemma domainRestriction_admits req t :
  domainRestriction req t =
  (Normal (if admits req then Next else Sent forbidden), t).
Proof.
  unfold domainRestriction. fold (admits req).
  destruct (admits req); reflexivity.
Qed.

(** Whatever handlers follow the filter in one [use] call, a denied
    request reaches none of them. *)
Lemma chain_denied (hs : list (Request -> M Step)) req t :
  admits req = false ->
  chain (domainRestriction :: hs) req t = (Normal (Sent forbidden), t).
Proof.
  intros H. simpl. unfold bind. rewrite domainRestriction_admits, H.
  reflexivity.
Qed.

Lemma dispatch_denied env b rest req t :
  admits req = false ->
  dispatch env b (use_domainRestriction :: rest) None req t =
  (Normal (Responded forbidden), t).
Proof.
  intros H. simpl. unfold bind. rewrite domainRestriction_admits, H.
  reflexivity.
Qed.

(** C1.  The admission filter calls [next()] exactly when the allow rule
    holds of the Host, Origin and Referer headers (absent headers read as
    the empty string): Host equal to an allowed entry or ending in "."
    followed by one; Origin containing an allowed entry or equal to
    http://entry or https://entry; Referer containing an allowed entry or
    starting with http://entry or https://entry.  When the rule fails the
    filter sends status 403 with the fixed Forbidden envelope, and no
    handler placed after it runs: the log is unchanged whatever follows. *)
Theorem domainRestriction_decision (req : Request) (t : list Event) :
  (allow_rule req <-> domainRestriction req t = (Normal Next, t)) /\
  (~ allow_rule req ->
   domainRestriction req t =
     (Normal
        (Sent
           (mkResponse 403
              (JObject
                 [ (str "error", JString (str "Forbidden"));
                   (str "message",
                    JString (str "Access denied. This API only accepts traffic from example.com or localhost:3000.")) ]))),
      t) /\
   (forall hs, chain (domainRestriction :: hs) req t = (Normal (Sent forbidden), t)) /\
   (forall env b rest,
      dispatch env b (use_domainRestriction :: rest) None req t =
      (Normal (Responded forbidden), t))).
Proof.
  split.
  - rewrite <- admits_spec, domainRestriction_admits.
    destruct (admits req); split; congruence.
  - intros H. apply admits_false in H. repeat split.
    + rewrite domainRestriction_admits, H. reflexivity.
    + intros hs. now apply chain_denied.
    + intros env b rest. now apply dispatch_denied.
Qed.

Lemma domainRestriction_decision_witness :
  (* admitted by Host, the other two headers absent *)
  domainRestriction
    (mkRequest (mkHeaders (Some (str "localhost:3000")) None None) GET_health) [] =
    (Normal Next, []) /\
  (* admitted by a subdomain in Host, by Origin, by Referer *)
  domainRestriction
    (mkRequest (mkHeaders (Some (str "api.example.com")) None None) GET_health) [] =
    (Normal Next, []) /\
  domainRestriction
    (mkRequest (mkHeaders None (Some (str "https://www.example.com")) None) GET_health) [] =
    (Normal Next, []) /\
  domainRestriction
    (mkRequest (mkHeaders None None (Some (str "http://127.0.0.1:3000/docs"))) GET_health) [] =
    (Normal Next, []) /\
  (* no header at all: each reads as the empty string, and the rule fails *)
  ~ allow_rule (mkRequest (mkHeaders None None None) GET_health) /\
  (forall hs,
     chain (domainRestriction :: hs)
       (mkRequest (mkHeaders None None None) GET_health) [] =
     (Normal (Sent forbidden), [])) /\
  (* a foreign Host *)
  domainRestriction (request_from "evil.com" "" "" GET_health) [] =
    (Normal (Sent forbidden), []).
Proof.
  assert (Hnone : ~ allow_rule (mkRequest (mkHeaders None None None) GET_health)).
  { unfold allow_rule, host_rule, origin_rule, referer_rule. cbn [headers host origin referer header_text].
    intros [[a [Ha H]] | [[a [Ha H]] | [a [Ha H]]]];
      cbn in Ha; decompose [or] Ha; try contradiction; subst a;
      decompose [or ex] H; clear H;
      repeat match goal with
             | E : [] = ?l ++ _ |- _ => destruct l; discriminate E
             | E : [] = _ |- _ => discriminate E
             end. }
  split; [|split; [|split; [|split; [|split; [exact Hnone|split]]]]].
  - apply (proj1 (domainRestriction_decision
                    (mkRequest (mkHeaders (Some (str "localhost:3000")) None None)
                       GET_health) [])).
    left. exists (str "localhost:3000"). split; [cbn; tauto | left; reflexivity].
  - apply (proj1 (domainRestriction_decision
                    (mkRequest (mkHeaders (Some (str "api.example.com")) None None)
                       GET_health) [])).
    left. exists (str "example.com"). split; [cbn; tauto | right].
    exists (str "api"). reflexivity.
  - apply (proj1 (domainRestriction_decision
                    (mkRequest (mkHeaders None (Some (str "https://www.example.com")) None)
                       GET_health) [])).
    right. left. exists (str "www.example.com"). split; [cbn; tauto | right; right].
    reflexivity.
  - apply (proj1 (domainRestriction_decision
                    (mkRequest
                       (mkHeaders None None (Some (str "http://127.0.0.1:3000/docs")))
                       GET_health) [])).
    right. right. exists (str "127.0.0.1:3000"). split; [cbn; tauto | right; left].
    exists (str "/docs"). reflexivity.
  - apply (proj2 (domainRestriction_decision
                    (mkRequest (mkHeaders None None None) GET_health) []) Hnone).
  - apply (proj2 (domainRestriction_decision
                    (request_from "evil.com" "" "" GET_health) [])).
    apply admits_false. vm_compute. reflexivity.
Defined.

(** C6.  The substring checks are permissive: a request whose Host is
    not allowed and whose Origin names the host notexample.com.evil.org,
    which is neither an allowed entry nor a subdomain of one but contains
    example.com, is admitted; so is one carrying that host in Referer. *)
Theorem domainRestriction_permissive :
  let h := str "notexample.com.evil.org" in
  ~ host_rule allowedHosts h /\
  ~ host_rule allowedHosts (str "evil.org") /\
  (let req := mkRequest
                (mkHeaders (Some (str "evil.org")) (Some (str "https://" ++ h)) None)
                GET_health in
   exec (domainRestriction req) = (Normal Next, [])) /\
  (let req := mkRequest
                (mkHeaders (Some (str "evil.org")) None (Some (str "https://" ++ h ++ str "/page")))
                GET_health in
   exec (domainRestriction req) = (Normal Next, [])).
Proof.
  cbv zeta. repeat split.
  - rewrite <- isAllowedHost_spec. vm_compute. discriminate.
  - rewrite <- isAllowedHost_spec. vm_compute. discriminate.
Qed.

End Admission.

(* ===================================================================== *)
(** * Validation, lookup and the two surfaces *)

Section Surfaces.

Implicit Types (id : jsstring) (t : list Event).

Lemma blank_check id :
  falsy id || negb (String.eqb (typeof id) "string")
  || Nat.eqb (length (trim id)) 0 = true <-> blank id.
Proof.
  rewrite <- trim_length_blank. unfold typeof. simpl.
  rewrite orb_false_r. destruct id; simpl; [|reflexivity].
  split; reflexivity.
Qed.

Lemma valid_id_not_blank id : valid_id id <-> ~ blank id.
Proof.
  unfold valid_id. rewrite blank_forallb, <- trim_nil. split.
  - tauto.
  - intros H. split; [|exact H]. intros ->. now apply H.
Qed.

Lemma valid_check id :
  valid_id id ->
  falsy id || negb (String.eqb (typeof id) "string")
  || Nat.eqb (length (trim id)) 0 = false.
Proof.
  intros H. apply valid_id_not_blank in H. rewrite <- blank_check in H.
  now apply not_true_is_false.
Qed.

Lemma validateUserId_blank id t :
  blank id ->
  validateUserId id t =
  (Normal (NextErr (new_ApiError 400 invalid_id_message)), t).
Proof.
  intros H. apply blank_check in H. unfold validateUserId.
  rewrite H. reflexivity.
Qed.

Lemma validateUserId_valid id t :
  valid_id id -> validateUserId id t = (Normal Next, t).
Proof.
  intros H. apply valid_check in H. unfold validateUserId.
  rewrite H. reflexivity.
Qed.

Lemma findById_eq prisma id t :
  UserService.findById prisma id t =
  match fault prisma id with
  | Some e => (Throw (store_error e), t ++ [FindUnique id])
  | None =>
      (Normal (match user prisma !! id with
               | Some n => Some (mkUser id n)
               | None => None
               end),
       t ++ [FindUnique id])
  end.
Proof.
  unfold UserService.findById, findUnique, bind, emit.
  destruct (fault prisma id); reflexivity.
Qed.

Lemma getUserById_eq prisma id t :
  getUserById prisma id t =
  (Normal
     match fault prisma id with
     | Some e => NextErr (store_error e)
     | None =>
         match user prisma !! id with
         | Some n => Sent (mkResponse 200 (json_of_user (mkUser id n)))
         | None =>
             Sent (mkResponse 404
                     (JObject
                        [ (str "error", JString (str "Not Found"));
                          (str "message",
                           JString (str "User with ID '" ++ id ++ str "' not found")) ]))
         end
     end,
   t ++ [FindUnique id]).
Proof.
  unfold getUserById, try_catch, bind. rewrite findById_eq.
  destruct (fault prisma id); [reflexivity|].
  destruct (user prisma !! id); reflexivity.
Qed.

Lemma resolver_blank prisma id t :
  blank id ->
  resolvers.Query.user prisma (mkUserArgs id) t =
  (Throw (new_Error invalid_id_message), t).
Proof.
  intros H. apply blank_check in H. unfold resolvers.Query.user.
  cbn [args_id]. rewrite H. reflexivity.
Qed.

Lemma resolver_valid prisma id t :
  valid_id id ->
  resolvers.Query.user prisma (mkUserArgs id) t =
  UserService.findById prisma id t.
Proof.
  intros H. apply valid_check in H. unfold resolvers.Query.user.
  cbn [args_id]. rewrite H. reflexivity.
Qed.

Lemma userRoutes_blank prisma req id t :
  target req = GET_users_id id -> blank id ->
  userRoutes prisma req t =
  (Normal (NextErr (new_ApiError 400 invalid_id_message)), t).
Proof.
  intros Ht H. unfold userRoutes, bind. rewrite Ht, validateUserId_blank by exact H.
  reflexivity.
Qed.

Lemma userRoutes_valid prisma req id t :
  target req = GET_users_id id -> valid_id id ->
  userRoutes prisma req t = getUserById prisma id t.
Proof.
  intros Ht H. unfold userRoutes, bind. rewrite Ht, validateUserId_valid by exact H.
  reflexivity.
Qed.

Lemma server_stack sw :
  serving (bootstrap (start sw)) = constructed_stack sw ++ [use_graphql].
Proof. destruct sw; vm_compute; reflexivity. Qed.

(** A denied request is answered 403 whatever it targets. *)
Lemma server_denied sw env req t :
  admits req = false ->
  server sw env req t = (Normal (Responded forbidden), t).
Proof.
  intros H. unfold server, http_server. rewrite server_stack.
  unfold constructed_stack. cbn [app].
  change (dispatch env body_accepted (use_json :: ?r) None req t)
    with (dispatch env body_accepted r None req t).
  now apply dispatch_denied.
Qed.

(** An admitted request for [GET /users/:id] reaches the router; an error
    it hands to [next] reaches [errorHandler]. *)
Lemma server_users sw env req id t :
  admits req = true -> target req = GET_users_id id ->
  server sw env req t =
  match userRoutes (prisma env) req t with
  | (Normal (Sent r), t') => (Normal (Responded r), t')
  | (Normal (NextErr e), t') =>
      match errorHandler e t' with
      | (Normal (Sent r), t'') => (Normal (Responded r), t'')
      | (Normal Next, t'') => (Normal (Unanswered None), t'')
      | (Normal (NextErr e'), t'') => (Normal (Unanswered (Some e')), t'')
      | (Throw x, t'') => (Throw x, t'')
      end
  | (Normal Next, t') => (Normal (Unanswered None), t')
  | (Throw x, t') => (Throw x, t')
  end.
Proof.
  intros Ha Ht. unfold server, http_server. rewrite server_stack.
  destruct sw; unfold constructed_stack; cbn [app dispatch handle];
    unfold bind, json, ret; rewrite domainRestriction_admits, Ha, ?Ht;
    destruct (userRoutes (prisma env) req t) as [[[| e | r] | x] t'];
    try reflexivity;
    destruct (errorHandler e t') as [[[| e' | r] | x] t'']; reflexivity.
Qed.

(** [errorHandler] on the errors the application itself hands to [next]:
    the validation error, and what the store or the body parser reject
    with. *)
Lemma errorHandler_400 message t :
  errorHandler (new_ApiError 400 message) t =
  (Normal
     (Sent
        (mkResponse 400
           (JObject [ (str "error", JString (str "ApiError"));
                      (str "message", JString message) ]))),
   t ++ [ConsoleError [str "Error:"; message]]).
Proof. reflexivity. Qed.

Lemma errorHandler_Error name message t :
  errorHandler (Error name message) t =
  (Normal (Sent internalServerError),
   t ++ [ConsoleError [str "Error:"; message]]).
Proof. reflexivity. Qed.

(** An admitted GraphQL request reaches the Apollo middleware. *)
Lemma server_graphql sw env req q t :
  admits req = true -> target req = Any_graphql q ->
  server sw env req t =
  match executeOperation (prisma env) q t with
  | (Normal b, t') => (Normal (Responded (mkResponse 200 b)), t')
  | (Throw x, t') => (Throw x, t')
  end.
Proof.
  intros Ha Ht. unfold server, http_server. rewrite server_stack.
  destruct sw; unfold constructed_stack;
    cbn [app dispatch handle chain];
    repeat (progress (unfold bind, json, json_again, ret, userRoutes, apolloMiddleware;
                      rewrite ?Ht, ?domainRestriction_admits, ?Ha;
                      cbv beta iota));
    destruct (executeOperation (prisma env) q t) as [[b | x] t'];
    reflexivity.
Qed.

Lemma server_health sw env req t :
  admits req = true -> target req = GET_health ->
  server sw env req t = (Normal (Responded (health env)), t).
Proof.
  intros Ha Ht. unfold server, http_server. rewrite server_stack.
  destruct sw; unfold constructed_stack;
    cbn [app dispatch handle];
    repeat (progress (unfold bind, json, ret, userRoutes;
                      rewrite ?Ht, ?domainRestriction_admits, ?Ha;
                      cbv beta iota));
    reflexivity.
Qed.

Lemma executeOperation_eq prisma q t :
  executeOperation prisma q t =
  match resolvers.Query.user prisma (args q) t with
  | (Normal r, t') =>
      (Normal (JObject [ (str "data", data_of (selection q) r) ]), t')
  | (Throw e, t') =>
      (Normal
         (JObject
            [ (str "errors",
               JArray [ JObject [ (str "message", JString (err_message e)) ] ]);
              (str "data", data_of (selection q) None) ]),
       t')
  end.
Proof.
  unfold executeOperation, try_catch, bind, ret.
  destruct (resolvers.Query.user prisma (args q) t) as [[r | e] t'];
    reflexivity.
Qed.

Lemma log_grows t (e : Event) : t ++ [e] <> t.
Proof.
  intros H. apply (f_equal (@length Event)) in H.
  rewrite length_app in H. simpl in H. lia.
Qed.



(** C3.  For a valid id, the store answering, the resolver
    [Query.user] returns the user [{id, name}] when the table holds one
    under that id, and returns null without throwing when it holds none:
    the response map is then [{data: {user: null}}] with no [errors] entry,
    also through the whole server for an admitted request, while the REST
    handler answers the same absent id with status 404. *)
Theorem graphql_lookup sw env req q t :
  let id := args_id (args q) in
  valid_id id ->
  fault (prisma env) id = None ->
  (forall n, user (prisma env) !! id = Some n ->
     resolvers.Query.user (prisma env) (args q) t =
     (Normal (Some (mkUser id n)), t ++ [FindUnique id])) /\
  (user (prisma env) !! id = None ->
     resolvers.Query.user (prisma env) (args q) t =
       (Normal None, t ++ [FindUnique id]) /\
     executeOperation (prisma env) q t =
       (Normal (JObject [ (str "data", JObject [ (str "user", JNull) ]) ]),
        t ++ [FindUnique id]) /\
     (allow_rule req -> target req = Any_graphql q ->
      server sw env req t =
        (Normal
           (Responded
              (mkResponse 200
                 (JObject [ (str "data", JObject [ (str "user", JNull) ]) ]))),
         t ++ [FindUnique id])) /\
     getUserById (prisma env) id t =
       (Normal
          (Sent
             (mkResponse 404
                (JObject
                   [ (str "error", JString (str "Not Found"));
                     (str "message",
                      JString (str "User with ID '" ++ id ++ str "' not found")) ]))),
        t ++ [FindUnique id])).
Proof.
  intros id Hv Hf. destruct q as [[i] sel]. cbn [args args_id] in *.
  subst id.
  assert (Hr : resolvers.Query.user (prisma env) (mkUserArgs i) t =
               (Normal (match user (prisma env) !! i with
                        | Some n => Some (mkUser i n)
                        | None => None
                        end), t ++ [FindUnique i])).
  { rewrite (resolver_valid _ _ _ Hv), findById_eq, Hf. reflexivity. }
  split.
  - intros n Hn. rewrite Hr, Hn. reflexivity.
  - intros Hn.
    assert (He : executeOperation (prisma env) (mkUserQuery (mkUserArgs i) sel) t =
                 (Normal (JObject [ (str "data", JObject [ (str "user", JNull) ]) ]),
                  t ++ [FindUnique i])).
    { rewrite executeOperation_eq. cbn [args selection].
      rewrite Hr, Hn. reflexivity. }
    repeat split.
    + rewrite Hr, Hn. reflexivity.
    + exact He.
    + intros Ha Ht. apply admits_spec in Ha.
      rewrite (server_graphql sw env req _ t Ha Ht), He. reflexivity.
    + rewrite getUserById_eq, Hf, Hn. reflexivity.
Qed.

Lemma graphql_lookup_witness :
  resolvers.Query.user seeded (mkUserArgs (str "user2")) [] =
    (Normal (Some (mkUser (str "user2") (str "Jane Smith"))),
     [FindUnique (str "user2")]) /\
  server true sample_env
    (request_from "localhost:3000" "" ""
       (Any_graphql (mkUserQuery (mkUserArgs (str "nobody")) [field_id; field_name])))
    [] =
  (Normal
     (Responded
        (mkResponse 200
           (JObject [ (str "data", JObject [ (str "user", JNull) ]) ]))),
   [FindUnique (str "nobody")]).
Proof.
  split.
  - apply (proj1 (graphql_lookup true sample_env
                    (request_from "localhost:3000" "" "" Unrouted)
                    (mkUserQuery (mkUserArgs (str "user2")) [])
                    []
                    ltac:(split; vm_compute; discriminate)
                    eq_refl)).
    vm_compute. reflexivity.
  - refine (proj1 (proj2 (proj2
             (proj2 (graphql_lookup true sample_env
                       (request_from "localhost:3000" "" ""
                          (Any_graphql
                             (mkUserQuery (mkUserArgs (str "nobody"))
                                [field_id; field_name])))
                       (mkUserQuery (mkUserArgs (str "nobody")) [field_id; field_name])
                       []
                       ltac:(split; vm_compute; discriminate)
                       eq_refl)
                _))) _ eq_refl).
    + vm_compute. reflexivity.
    + apply admits_spec. vm_compute. reflexivity.
Defined.

(** C4.  An id that is empty or made of white space only is rejected
    by both surfaces with the message "Invalid user ID provided": on REST
    [validateUserId] passes an [ApiError] of status 400 to [next] and the
    server answers 400; on GraphQL the resolver throws and the response
    carries the message in its [errors] entry.  In both, the log records no
    [findUnique] call: the lookup service is not reached. *)
Theorem blank_id_rejected sw env req id t :
  blank id ->
  validateUserId id t =
    (Normal (NextErr (ApiError 400 (str "ApiError") (str "Invalid user ID provided"))),
     t) /\
  (allow_rule req -> target req = GET_users_id id ->
   server sw env req t =
     (Normal
        (Responded
           (mkResponse 400
              (JObject [ (str "error", JString (str "ApiError"));
                         (str "message", JString (str "Invalid user ID provided")) ]))),
      t ++ [ConsoleError [str "Error:"; str "Invalid user ID provided"]])) /\
  resolvers.Query.user (prisma env) (mkUserArgs id) t =
    (Throw (Error (str "Error") (str "Invalid user ID provided")), t) /\
  (forall sel, allow_rule req ->
   target req = Any_graphql (mkUserQuery (mkUserArgs id) sel) ->
   server sw env req t =
     (Normal
        (Responded
           (mkResponse 200
              (JObject
                 [ (str "errors",
                    JArray
                      [ JObject
                          [ (str "message",
                             JString (str "Invalid user ID provided")) ] ]);
                   (str "data", JObject [ (str "user", JNull) ]) ]))),
      t)).
Proof.
  intros Hb. repeat split.
  - now apply validateUserId_blank.
  - intros Ha Ht. apply admits_spec in Ha.
    rewrite (server_users sw env req id t Ha Ht),
      (userRoutes_blank _ _ _ _ Ht Hb).
    reflexivity.
  - now apply resolver_blank.
  - intros sel Ha Ht. apply admits_spec in Ha.
    rewrite (server_graphql sw env req _ t Ha Ht), executeOperation_eq.
    cbn [args selection]. rewrite (resolver_blank _ _ _ Hb). reflexivity.
Qed.

Lemma blank_id_rejected_witness :
  blank (str "   ") /\
  server true sample_env
    (request_from "localhost:3000" "" "" (GET_users_id (str "   "))) [] =
  (Normal
     (Responded
        (mkResponse 400
           (JObject [ (str "error", JString (str "ApiError"));
                      (str "message", JString (str "Invalid user ID provided")) ]))),
   [ConsoleError [str "Error:"; str "Invalid user ID provided"]]) /\
  resolvers.Query.user seeded (mkUserArgs []) [] =
    (Throw (Error (str "Error") (str "Invalid user ID provided")), []).
Proof.
  assert (Hb : blank (str "   ")).
  { apply blank_forallb. vm_compute. reflexivity. }
  split; [exact Hb|]. split.
  - refine (proj1 (proj2 (blank_id_rejected true sample_env
                            (request_from "localhost:3000" "" ""
                               (GET_users_id (str "   ")))
                            (str "   ") [] Hb)) _ eq_refl).
    apply admits_spec. vm_compute. reflexivity.
  - apply (blank_id_rejected true sample_env
             (request_from "localhost:3000" "" "" Unrouted) [] []).
    apply blank_forallb. vm_compute. reflexivity.
Defined.




(** C7.  The REST check and the GraphQL check accept exactly the same
    ids, those present and non-empty after trimming, and reject all others
    with the same message "Invalid user ID provided". *)
Theorem validation_agrees prisma id t :
  (valid_id id <-> validateUserId id t = (Normal Next, t)) /\
  (valid_id id <->
   resolvers.Query.user prisma (mkUserArgs id) t =
   UserService.findById prisma id t) /\
  (~ valid_id id <->
   validateUserId id t =
   (Normal (NextErr (new_ApiError 400 (str "Invalid user ID provided"))), t)) /\
  (~ valid_id id <->
   resolvers.Query.user prisma (mkUserArgs id) t =
   (Throw (new_Error (str "Invalid user ID provided")), t)).
Proof.
  assert (Hdec : valid_id id \/ blank id).
  { rewrite valid_id_not_blank, blank_forallb.
    destruct (forallb isWhiteSpace id); [right | left]; congruence. }
  assert (Hfind : UserService.findById prisma id t <>
                  (Throw (new_Error (str "Invalid user ID provided")), t)).
  { rewrite findById_eq. destruct (fault prisma id); intros H;
      apply (f_equal snd) in H; cbn [snd] in H; now apply log_grows in H. }
  destruct Hdec as [Hv | Hb].
  - pose proof (validateUserId_valid id t Hv) as H1.
    pose proof (resolver_valid prisma id t Hv) as H2.
    split; [tauto|]. split; [tauto|]. split; (split; [tauto|]).
    + intros E. rewrite H1 in E. discriminate E.
    + intros E. rewrite H2 in E. now apply Hfind in E.
  - assert (Hn : ~ valid_id id) by (rewrite valid_id_not_blank; tauto).
    pose proof (validateUserId_blank id t Hb) as H1.
    pose proof (resolver_blank prisma id t Hb) as H2.
    split; [|split; [|tauto]]; (split; [tauto|]).
    + intros E. rewrite H1 in E. discriminate E.
    + intros E. rewrite H2 in E. symmetry in E. now apply Hfind in E.
Qed.

(** A request whose body [json()] refuses skips the filter and every
    route, and is answered by [errorHandler]. *)
Lemma http_server_refused sw env name message req t :
  http_server sw env (body_refused name message) req t =
  (Normal (Responded internalServerError),
   t ++ [ConsoleError [str "Error:"; message]]).
Proof.
  unfold http_server. rewrite server_stack.
  destruct sw; reflexivity.
Qed.

(** C9, for the requests that reach the filter.  The admission filter gates every route,
    [GET /health] included, for the requests that reach it, those whose
    body [json()] lets through: such a request whose headers fail the
    allow rule is answered 403 with the Forbidden envelope whatever it
    targets, so a denied [GET /health] gets 403, and only an admitted one
    gets 200 with [{status: "healthy", timestamp}].  A request whose body
    [json()] refuses never reaches the filter: registered first, the
    parser hands its error to [errorHandler], which answers 500. *)
Theorem health_is_gated sw env b req t :
  (b = body_accepted -> ~ allow_rule req ->
   http_server sw env b req t =
   (Normal
      (Responded
         (mkResponse 403
            (JObject
               [ (str "error", JString (str "Forbidden"));
                 (str "message",
                  JString (str "Access denied. This API only accepts traffic from example.com or localhost:3000.")) ]))),
    t)) /\
  (b = body_accepted -> target req = GET_health -> ~ allow_rule req ->
   http_server sw env b req t = (Normal (Responded forbidden), t)) /\
  (b = body_accepted -> target req = GET_health -> allow_rule req ->
   http_server sw env b req t =
   (Normal
      (Responded
         (mkResponse 200
            (JObject [ (str "status", JString (str "healthy"));
                       (str "timestamp", JString (now_ISO env)) ]))),
    t)) /\
  (forall name message, b = body_refused name message ->
   http_server sw env b req t =
   (Normal
      (Responded
         (mkResponse 500
            (JObject
               [ (str "error", JString (str "Internal Server Error"));
                 (str "message", JString (str "An unexpected error occurred")) ]))),
    t ++ [ConsoleError [str "Error:"; message]])).
Proof.
  split; [|split; [|split]].
  - intros -> H. apply admits_false in H. now apply server_denied.
  - intros -> _ H. apply admits_false in H. now apply server_denied.
  - intros -> Ht Ha. apply admits_spec in Ha. now apply server_health.
  - intros name message ->. apply http_server_refused.
Qed.

Lemma health_is_gated_witness :
  http_server true sample_env body_accepted
    (request_from "evil.com" "" "" GET_health) [] =
    (Normal (Responded forbidden), []) /\
  http_server true sample_env body_accepted
    (request_from "localhost:3000" "" "" GET_health) [] =
    (Normal (Responded (health sample_env)), []) /\
  http_server true sample_env
    (body_refused (str "SyntaxError") (str "Unexpected end of JSON input"))
    (request_from "localhost:3000" "" "" GET_health) [] =
    (Normal (Responded internalServerError),
     [ConsoleError [str "Error:"; str "Unexpected end of JSON input"]]).
Proof.
  split; [|split].
  - refine (proj1 (proj2 (health_is_gated true sample_env body_accepted
                            (request_from "evil.com" "" "" GET_health) []))
              eq_refl eq_refl _).
    apply admits_false. vm_compute. reflexivity.
  - refine (proj1 (proj2 (proj2 (health_is_gated true sample_env body_accepted
                            (request_from "localhost:3000" "" "" GET_health) [])))
              eq_refl eq_refl _).
    apply admits_spec. vm_compute. reflexivity.
  - exact (proj2 (proj2 (proj2 (health_is_gated true sample_env
                            (body_refused (str "SyntaxError")
                               (str "Unexpected end of JSON input"))
                            (request_from "localhost:3000" "" "" GET_health) [])))
             _ _ eq_refl).
Defined.

(** C9 does not hold of every request: a [GET /health] whose three
    headers fail the allow rule and whose body [json()] refuses is answered
    500 with the generic error body, not 403 with the Forbidden envelope. *)
Lemma health_refused_body_not_403 :
  ~ allow_rule (request_from "evil.com" "" "" GET_health) /\
  target (request_from "evil.com" "" "" GET_health) = GET_health /\
  http_server true sample_env
    (body_refused (str "SyntaxError") (str "Unexpected end of JSON input"))
    (request_from "evil.com" "" "" GET_health) [] =
    (Normal (Responded internalServerError),
     [ConsoleError [str "Error:"; str "Unexpected end of JSON input"]]) /\
  status internalServerError = 500 /\
  http_server true sample_env
    (body_refused (str "SyntaxError") (str "Unexpected end of JSON input"))
    (request_from "evil.com" "" "" GET_health) [] <>
    (Normal (Responded forbidden), []).
Proof.
  split; [apply admits_false; vm_compute; reflexivity|].
  split; [reflexivity|]. split; [apply http_server_refused|].
  split; [reflexivity|].
  rewrite http_server_refused. discriminate.
Qed.

(** C10.  Both surfaces hand the id to the lookup service as received:
    for every id that is valid (non-empty after trimming), surrounding
    white space or not, the one [findUnique] call carries the untrimmed id,
    and the REST 404 message quotes the untrimmed id. *)
Theorem untrimmed_id_reaches_store prisma req id t :
  valid_id id ->
  target req = GET_users_id id ->
  snd (userRoutes prisma req t) = t ++ [FindUnique id] /\
  snd (resolvers.Query.user prisma (mkUserArgs id) t) = t ++ [FindUnique id] /\
  (fault prisma id = None -> user prisma !! id = None ->
   fst (userRoutes prisma req t) =
   Normal
     (Sent
        (mkResponse 404
           (JObject
              [ (str "error", JString (str "Not Found"));
                (str "message",
                 JString (str "User with ID '" ++ id ++ str "' not found")) ])))).
Proof.
  intros Hv Ht.
  rewrite (userRoutes_valid _ _ _ _ Ht Hv), getUserById_eq,
    (resolver_valid _ _ _ Hv), findById_eq.
  repeat split.
  - destruct (fault prisma id); reflexivity.
  - intros Hf Hn. cbn [fst]. rewrite Hf, Hn. reflexivity.
Qed.

Lemma untrimmed_id_reaches_store_witness :
  trim (str " user1") = str "user1" /\
  user seeded !! str "user1" = Some (str "John Doe") /\
  snd (userRoutes seeded
         (request_from "localhost:3000" "" "" (GET_users_id (str " user1"))) []) =
    [FindUnique (str " user1")] /\
  snd (resolvers.Query.user seeded (mkUserArgs (str " user1")) []) =
    [FindUnique (str " user1")] /\
  fst (userRoutes seeded
         (request_from "localhost:3000" "" "" (GET_users_id (str " user1"))) []) =
    Normal
      (Sent
         (mkResponse 404
            (JObject
               [ (str "error", JString (str "Not Found"));
                 (str "message",
                  JString (str "User with ID ' user1' not found")) ]))).
Proof.
  pose proof (untrimmed_id_reaches_store seeded
                (request_from "localhost:3000" "" "" (GET_users_id (str " user1")))
                (str " user1") []
                ltac:(split; vm_compute; discriminate)
                eq_refl) as [H1 [H2 H3]].
  split; [vm_compute; reflexivity|].
  split; [vm_compute; reflexivity|].
  split; [exact H1|]. split; [exact H2|].
  apply H3; vm_compute; reflexivity.
Defined.

End Surfaces.

(* ===================================================================== *)
(** * The [App] singleton *)

Section Singleton.

Lemma getInstance_existing p inst :
  App_instance p = Some inst -> App.getInstance p = (inst, p).
Proof. intros H. unfold App.getInstance. rewrite H. reflexivity. Qed.

Lemma getInstance_times_existing p inst m :
  App_instance p = Some inst ->
  getInstance_times m p = (List.repeat inst m, p).
Proof.
  intros H. induction m as [|m IH]; simpl; [reflexivity|].
  rewrite (getInstance_existing p inst H), IH. reflexivity.
Qed.

Lemma constructor_spec p :
  let (this, p') := App.constructor p in
  this = allocated p /\
  App_instance p' = App_instance p /\
  allocated p' = S (allocated p) /\
  swagger_yaml p' = swagger_yaml p /\
  listening p' = listening p /\
  heap p' !! this = Some (constructed_stack (swagger_yaml p)) /\
  (forall r, r <> this -> heap p' !! r = heap p !! r).
Proof.
  unfold App.constructor, App.initializeErrorHandling, App.initializeRoutes,
    App.initializeMiddleware.
  cbn [swagger_yaml App.use].
  destruct (swagger_yaml p) eqn:Hsw; repeat split;
    cbn [App.use App_instance allocated swagger_yaml listening heap];
    try reflexivity.
  - rewrite !lookup_alter_eq, lookup_insert_eq. reflexivity.
  - intros r Hr. rewrite !lookup_alter_ne, lookup_insert_ne by congruence.
    reflexivity.
  - rewrite !lookup_alter_eq, lookup_insert_eq. reflexivity.
  - intros r Hr. rewrite !lookup_alter_ne, lookup_insert_ne by congruence.
    reflexivity.
Qed.

(** C8.  [App.getInstance] is idempotent.  In a process where no
    instance exists yet, any number of calls return one and the same
    instance; the constructor runs once, at the first call (one object is
    allocated, its stack holds each registration once, in order, and no
    other object is touched); later calls change nothing, so all callers
    see the same configuration. *)
Theorem getInstance_idempotent (p : Process) (n : nat) :
  App_instance p = None ->
  exists inst p1,
    App.getInstance p = (inst, p1) /\
    getInstance_times (S n) p = (List.repeat inst (S n), p1) /\
    App_instance p1 = Some inst /\
    allocated p1 = S (allocated p) /\
    App.app inst p1 = constructed_stack (swagger_yaml p) /\
    (forall r, r <> inst -> heap p1 !! r = heap p !! r) /\
    (forall m, getInstance_times m p1 = (List.repeat inst m, p1)).
Proof.
  intros Hnone.
  pose proof (constructor_spec p) as Hc.
  destruct (App.constructor p) as [this p'] eqn:Ec.
  destruct Hc as (Hthis & _ & Halloc & _ & _ & Hstack & Hother).
  set (p1 := mkProcess (Some this) (heap p') (allocated p') (swagger_yaml p')
               (listening p')).
  assert (Hget : App.getInstance p = (this, p1)).
  { unfold App.getInstance. rewrite Hnone, Ec. reflexivity. }
  assert (Hrest : forall m, getInstance_times m p1 = (List.repeat this m, p1)).
  { intros m. now apply getInstance_times_existing. }
  exists this, p1. repeat split; trivial.
  - cbn [getInstance_times]. rewrite Hget, Hrest. reflexivity.
  - unfold App.app. cbn [heap p1]. rewrite Hstack. reflexivity.
Qed.

Lemma getInstance_idempotent_witness :
  exists inst p1,
    App.getInstance (start true) = (inst, p1) /\
    getInstance_times 3 (start true) = ([inst; inst; inst], p1) /\
    App_instance p1 = Some inst /\
    allocated p1 = 1%nat /\
    App.app inst p1 =
      [use_json; use_domainRestriction; use_api_docs; use_users; get_health;
       use_errorHandler] /\
    (forall r, r <> inst -> heap p1 !! r = heap (start true) !! r) /\
    (forall m, getInstance_times m p1 = (List.repeat inst m, p1)).
Proof. exact (getInstance_idempotent (start true) 2 eq_refl). Defined.

End Singleton.

(* ===================================================================== *)
(** * The seeded scenario *)

Section Scenario.

Example scenario_user1 :
  exec (server true sample_env
          (request_from "localhost:3000" "" "" (GET_users_id (str "user1")))) =
  (Normal (Responded (mkResponse 200 (json_of_user (mkUser (str "user1") (str "John Doe"))))),
   [FindUnique (str "user1")]).
Proof. vm_compute. reflexivity. Qed.

Example scenario_evil_host :
  exec (server true sample_env
          (request_from "evil.com" "" "" (GET_users_id (str "user1")))) =
  (Normal (Responded forbidden), []).
Proof. vm_compute. reflexivity. Qed.

Example scenario_subdomain :
  admits (request_from "api.example.com" "" "" GET_health) = true /\
  admits (request_from "notexample.com" "" "" GET_health) = false.
Proof. split; vm_compute; reflexivity. Qed.

Example scenario_store_failure :
  let broken := mkPrisma ∅ (fun _ => Some (Error (str "PrismaClientKnownRequestError") (str "connection lost"))) in
  exec (server false (mkEnv broken [] (mkResponse 200 JNull))
          (request_from "localhost:3000" "" "" (GET_users_id (str "user1")))) =
  (Normal (Responded internalServerError),
   [FindUnique (str "user1"); ConsoleError [str "Error:"; str "connection lost"]]).
Proof. vm_compute. reflexivity. Qed.

Example scenario_graphql_user1 :
  exec (server true sample_env
          (request_from "localhost:3000" "" ""
             (Any_graphql (mkUserQuery (mkUserArgs (str "user1")) [field_id; field_name])))) =
  (Normal
     (Responded
        (mkResponse 200
           (JObject
              [ (str "data",
                 JObject
                   [ (str "user",
                      JObject [ (str "id", JString (str "user1"));
                                (str "name", JString (str "John Doe")) ]) ]) ]))),
   [FindUnique (str "user1")]).
Proof. vm_compute. reflexivity. Qed.

End Scenario.

(* ===================================================================== *)
(** * Further properties of the admission filter *)

Section AdmissionMore.

Lemma strictEq_includes o p a : strictEq o (p ++ a) = true -> includes o a = true.
Proof.
  intros H. apply strictEq_spec in H. apply includes_spec.
  exists p, []. rewrite app_nil_r. exact H.
Qed.

Lemma startsWith_includes rf p a :
  startsWith rf (p ++ a) = true -> includes rf a = true.
Proof.
  intros H. apply startsWith_spec in H as [r Hr]. apply includes_spec.
  exists p, r. rewrite Hr, <- app_assoc. reflexivity.
Qed.

(** X1.  On Origin and on Referer only the substring test decides: the
    equality tests against http://entry and https://entry, and the prefix
    tests on Referer, never change the outcome, for any list of allowed
    entries. *)
Theorem origin_referer_containment_only (allowed : list jsstring) (h : jsstring) :
  isAllowedOrigin allowed h = existsb (includes h) allowed /\
  isAllowedReferer allowed h = existsb (includes h) allowed.
Proof.
  unfold isAllowedOrigin, isAllowedReferer.
  induction allowed as [|a l [IHo IHr]]; [split; reflexivity|].
  cbn [existsb]. rewrite IHo, IHr. split; f_equal.
  - destruct (includes h a) eqn:Hi; [reflexivity|]. cbn [orb].
    destruct (strictEq h (str "http://" ++ a)) eqn:E1.
    { apply strictEq_includes in E1. congruence. }
    destruct (strictEq h (str "https://" ++ a)) eqn:E2; [|reflexivity].
    apply strictEq_includes in E2. congruence.
  - destruct (includes h a) eqn:Hi; [reflexivity|]. cbn [orb].
    destruct (startsWith h (str "http://" ++ a)) eqn:E1.
    { apply startsWith_includes in E1. congruence. }
    destruct (startsWith h (str "https://" ++ a)) eqn:E2; [|reflexivity].
    apply startsWith_includes in E2. congruence.
Qed.

(** X2.  A request whose Origin and Referer are absent or empty is
    decided by its Host alone, by equality or dot-suffix against the
    allowed entries; with Host absent or empty as well it is denied. *)
Theorem host_only_decision (req : Request) (t : list Event) :
  orEmpty (origin (headers req)) = [] ->
  orEmpty (referer (headers req)) = [] ->
  (host_rule allowedHosts (orEmpty (host (headers req))) <->
   domainRestriction req t = (Normal Next, t)) /\
  (~ host_rule allowedHosts (orEmpty (host (headers req))) <->
   domainRestriction req t = (Normal (Sent forbidden), t)) /\
  (orEmpty (host (headers req)) = [] ->
   domainRestriction req t = (Normal (Sent forbidden), t)).
Proof.
  intros Ho Hr.
  assert (Ha : admits req = isAllowedHost allowedHosts (orEmpty (host (headers req)))).
  { unfold admits. rewrite Ho, Hr.
    change (isAllowedOrigin allowedHosts []) with false.
    change (isAllowedReferer allowedHosts []) with false.
    now rewrite !orb_false_r. }
  rewrite domainRestriction_admits, Ha, <- isAllowedHost_spec.
  destruct (isAllowedHost allowedHosts (orEmpty (host (headers req)))) eqn:E.
  - split; [|split].
    + split; [reflexivity | trivial].
    + split; [congruence | discriminate].
    + intros Hh. rewrite Hh in E. vm_compute in E. discriminate E.
  - split; [|split].
    + split; [discriminate | intros H; discriminate H].
    + split; [reflexivity | intros _; discriminate].
    + reflexivity.
Qed.

Lemma host_only_decision_witness :
  domainRestriction
    (mkRequest (mkHeaders (Some (str "api.example.com")) None (Some [])) GET_health) [] =
    (Normal Next, []) /\
  domainRestriction
    (mkRequest (mkHeaders (Some (str "myexample.com")) None None) GET_health) [] =
    (Normal (Sent forbidden), []) /\
  domainRestriction (mkRequest (mkHeaders None None None) GET_health) [] =
    (Normal (Sent forbidden), []).
Proof.
  split; [|split].
  - apply (proj1 (host_only_decision
                    (mkRequest (mkHeaders (Some (str "api.example.com")) None (Some []))
                       GET_health) [] eq_refl eq_refl)).
    apply isAllowedHost_spec. vm_compute. reflexivity.
  - apply (proj1 (proj2 (host_only_decision
                    (mkRequest (mkHeaders (Some (str "myexample.com")) None None)
                       GET_health) [] eq_refl eq_refl))).
    rewrite <- isAllowedHost_spec. vm_compute. discriminate.
  - apply (proj2 (proj2 (host_only_decision
                    (mkRequest (mkHeaders None None None) GET_health) []
                    eq_refl eq_refl))).
    reflexivity.
Defined.

End AdmissionMore.

(* ===================================================================== *)
(** * Further properties of the served application *)

Section ServerMore.

Implicit Types (id : jsstring) (t : list Event).

Lemma server_api_docs sw env req t :
  admits req = true -> target req = Any_api_docs ->
  server sw env req t =
  (Normal (if sw then Responded (swagger_page env) else Unanswered None), t).
Proof.
  intros Ha Ht. unfold server, http_server. rewrite server_stack.
  destruct sw; unfold constructed_stack;
    cbn [app dispatch handle];
    repeat (progress (unfold bind, json, ret, userRoutes;
                      rewrite ?Ht, ?domainRestriction_admits, ?Ha;
                      cbv beta iota));
    reflexivity.
Qed.

Lemma server_unrouted sw env req t :
  admits req = true -> target req = Unrouted ->
  server sw env req t = (Normal (Unanswered None), t).
Proof.
  intros Ha Ht. unfold server, http_server. rewrite server_stack.
  destruct sw; unfold constructed_stack;
    cbn [app dispatch handle];
    repeat (progress (unfold bind, json, ret, userRoutes;
                      rewrite ?Ht, ?domainRestriction_admits, ?Ha;
                      cbv beta iota));
    reflexivity.
Qed.

Lemma valid_or_blank id : valid_id id \/ blank id.
Proof.
  rewrite valid_id_not_blank, blank_forallb.
  destruct (forallb isWhiteSpace id); [right | left]; congruence.
Qed.

(** The router on [GET /users/:id], in full. *)
Lemma userRoutes_eq prisma req id t :
  target req = GET_users_id id ->
  (blank id /\
   userRoutes prisma req t =
   (Normal (NextErr (new_ApiError 400 invalid_id_message)), t)) \/
  (valid_id id /\ userRoutes prisma req t = getUserById prisma id t).
Proof.
  intros Ht. destruct (valid_or_blank id) as [Hv | Hb].
  - right. split; [exact Hv | exact (userRoutes_valid _ _ _ _ Ht Hv)].
  - left. split; [exact Hb | exact (userRoutes_blank _ _ _ _ Ht Hb)].
Qed.



(** X4.  When the store fails on an admitted [GET /users/:id] with a
    valid id, the handler's [catch] passes the error on and the response is
    500 with the generic body; the error's message is written to the
    console only, after the one store call. *)
Theorem rest_store_failure sw env req id name message t :
  allow_rule req ->
  target req = GET_users_id id ->
  valid_id id ->
  fault (prisma env) id = Some (Error name message) ->
  server sw env req t =
  (Normal
     (Responded
        (mkResponse 500
           (JObject
              [ (str "error", JString (str "Internal Server Error"));
                (str "message", JString (str "An unexpected error occurred")) ]))),
   t ++ [FindUnique id; ConsoleError [str "Error:"; message]]).
Proof.
  intros Ha Ht Hv Hf. apply admits_spec in Ha.
  rewrite (server_users sw env req id t Ha Ht),
    (userRoutes_valid _ _ _ _ Ht Hv), getUserById_eq, Hf.
  cbv beta iota. unfold store_error. cbn [err_name err_message].
  rewrite errorHandler_Error, <- app_assoc. reflexivity.
Qed.

Lemma rest_store_failure_witness :
  server false
    (mkEnv (mkPrisma ∅ (fun _ => Some (Error (str "PrismaClientInitializationError")
                                         (str "Can't reach database server"))))
       [] (mkResponse 200 JNull))
    (request_from "localhost:3000" "" "" (GET_users_id (str "user1"))) [] =
  (Normal (Responded internalServerError),
   [FindUnique (str "user1");
    ConsoleError [str "Error:"; str "Can't reach database server"]]).
Proof.
  apply (rest_store_failure false
           (mkEnv (mkPrisma ∅ (fun _ => Some (Error (str "PrismaClientInitializationError")
                                                (str "Can't reach database server"))))
              [] (mkResponse 200 JNull))
           (request_from "localhost:3000" "" "" (GET_users_id (str "user1")))
           (str "user1")
           (str "PrismaClientInitializationError")
           (str "Can't reach database server") []).
  - apply admits_spec. vm_compute. reflexivity.
  - reflexivity.
  - split; vm_compute; discriminate.
  - reflexivity.
Defined.



(** Every request, by cases: the outcome and the events it adds. *)
Lemma server_cases sw env req t :
  exists o evs,
    server sw env req t = (Normal o, t ++ evs) /\
    ((admits req = false /\ o = Responded forbidden /\ evs = []) \/
     (admits req = true /\
      ((exists id r, target req = GET_users_id id /\ o = Responded r /\
          ((blank id /\ exists a, evs = [ConsoleError a]) \/
           (valid_id id /\
            (evs = [FindUnique id] \/ exists a, evs = [FindUnique id; ConsoleError a])))) \/
       (exists q r, target req = Any_graphql q /\ o = Responded r /\
          ((blank (args_id (args q)) /\ evs = []) \/
           (valid_id (args_id (args q)) /\ evs = [FindUnique (args_id (args q))]))) \/
       (target req = GET_health /\ o = Responded (health env) /\ evs = []) \/
       (target req = Any_api_docs /\ sw = true /\
        o = Responded (swagger_page env) /\ evs = []) \/
       (target req = Any_api_docs /\ sw = false /\ o = Unanswered None /\ evs = []) \/
       (target req = Unrouted /\ o = Unanswered None /\ evs = [])))).
Proof.
  destruct (admits req) eqn:Ha.
  2:{ exists (Responded forbidden), []. rewrite app_nil_r.
      split; [now apply server_denied | left; auto]. }
  destruct (target req) as [id | | | q |] eqn:Ht.
  - rewrite (server_users sw env req id t Ha Ht).
    destruct (userRoutes_eq (prisma env) req id t Ht) as [[Hb ->] | [Hv ->]].
    + eexists _, [_]. split; [reflexivity|].
      right. split; [reflexivity|]. left. eexists _, _.
      split; [reflexivity|]. split; [reflexivity|]. left. eauto.
    + rewrite getUserById_eq.
      destruct (fault (prisma env) id) as [e|].
      * cbv beta iota. unfold store_error.
        rewrite errorHandler_Error, <- app_assoc.
        exists (Responded internalServerError),
          [FindUnique id; ConsoleError [str "Error:"; err_message e]].
        split; [reflexivity|].
        right. split; [reflexivity|]. left. eexists _, _.
        split; [reflexivity|]. split; [reflexivity|]. right. eauto.
      * destruct (user (prisma env) !! id);
          (eexists _, [_]; split; [reflexivity|];
           right; split; [reflexivity|]; left; eexists _, _;
           split; [reflexivity|]; split; [reflexivity|]; right; eauto).
  - exists (Responded (health env)), []. rewrite app_nil_r.
    split; [now apply server_health|]. right. split; [reflexivity|].
    right. right. left. auto.
  - rewrite (server_api_docs sw env req t Ha Ht).
    eexists _, []. rewrite app_nil_r.
    split; [reflexivity|]. right. split; [reflexivity|].
    destruct sw.
    + right. right. right. left. auto.
    + right. right. right. right. left. auto.
  - rewrite (server_graphql sw env req q t Ha Ht), executeOperation_eq.
    destruct q as [[i] sel]. cbn [args args_id selection].
    destruct (valid_or_blank i) as [Hv | Hb].
    + rewrite (resolver_valid _ _ _ Hv), findById_eq.
      destruct (fault (prisma env) i);
        (eexists _, [_]; split; [reflexivity|];
         right; split; [reflexivity|]; right; left; eexists _, _;
         split; [reflexivity|]; split; [reflexivity|]; right; auto).
    + rewrite (resolver_blank _ _ _ Hb).
      eexists _, []. rewrite app_nil_r. split; [reflexivity|].
      right. split; [reflexivity|]. right. left. eexists _, _.
      split; [reflexivity|]. split; [reflexivity|]. left. auto.
  - exists (Unanswered None), []. rewrite app_nil_r.
    split; [now apply server_unrouted|]. right. split; [reflexivity|].
    do 5 right. auto.
Qed.

(** X6.  Handling a request that does not go to [/graphql] only
    appends to the log, and queries the store at most once.  When [json()]
    lets the body through, a denied request adds nothing to the log, and
    the one query is made only for an admitted [GET /users/:id] with a
    valid id, with that id; when [json()] refuses the body the only entry
    is the console line of [errorHandler], and the store is not
    queried. *)
Theorem at_most_one_store_call sw env b req t :
  (forall q, target req <> Any_graphql q) ->
  exists evs,
    snd (http_server sw env b req t) = t ++ evs /\
    (store_calls evs <= 1)%nat /\
    (b = body_accepted -> ~ allow_rule req -> evs = []) /\
    (forall name message,
       b = body_refused name message ->
       evs = [ConsoleError [str "Error:"; message]]) /\
    (store_calls evs = 1%nat ->
     b = body_accepted /\ allow_rule req /\
     exists id, valid_id id /\ target req = GET_users_id id /\
       In (FindUnique id) evs).
Proof.
  intros Hng. destruct b as [|name message].
  2:{ exists [ConsoleError [str "Error:"; message]].
      rewrite http_server_refused. split; [reflexivity|].
      split; [cbn; lia|]. split; [discriminate|].
      split; [intros n m E; now injection E as _ <- |]. cbn. discriminate. }
  change (http_server sw env body_accepted req t) with (server sw env req t).
  destruct (server_cases sw env req t) as (o & evs & Hs & Hc).
  exists evs. rewrite Hs. split; [reflexivity|].
  assert (Hrf : forall name message,
            body_accepted = body_refused name message ->
            evs = [ConsoleError [str "Error:"; message]]) by discriminate.
  destruct Hc as [(Ha & _ & ->) | (Ha & Hc)].
  { split; [cbn; lia|]. split; [reflexivity|]. split; [exact Hrf|].
    cbn. discriminate. }
  assert (Hal : allow_rule req) by now apply admits_spec.
  destruct Hc as [(id & r & Ht & _ & Hc) | [(q & r & Ht & _) | Hc]].
  - destruct Hc as [(Hb & a & ->) | (Hv & [-> | (a & ->)])].
    + split; [cbn; lia|]. split; [tauto|]. split; [exact Hrf|].
      cbn. discriminate.
    + split; [cbn; lia|]. split; [tauto|]. split; [exact Hrf|].
      intros _. split; [reflexivity|]. split; [exact Hal|].
      exists id. split; [exact Hv|]. split; [exact Ht|]. now left.
    + split; [cbn; lia|]. split; [tauto|]. split; [exact Hrf|].
      intros _. split; [reflexivity|]. split; [exact Hal|].
      exists id. split; [exact Hv|]. split; [exact Ht|]. now left.
  - now apply Hng in Ht.
  - assert (He : evs = []) by (decompose [and or] Hc; assumption).
    rewrite He. split; [cbn; lia|]. split; [reflexivity|].
    split; [discriminate|]. cbn. discriminate.
Qed.

Lemma at_most_one_store_call_witness :
  exists evs,
    snd (http_server true sample_env body_accepted
           (request_from "localhost:3000" "" "" (GET_users_id (str "user1"))) []) =
      [] ++ evs /\
    (store_calls evs <= 1)%nat /\
    (body_accepted = body_accepted ->
     ~ allow_rule (request_from "localhost:3000" "" "" (GET_users_id (str "user1"))) ->
     evs = []) /\
    (forall name message,
       body_accepted = body_refused name message ->
       evs = [ConsoleError [str "Error:"; message]]) /\
    (store_calls evs = 1%nat ->
     body_accepted = body_accepted /\
     allow_rule (request_from "localhost:3000" "" "" (GET_users_id (str "user1"))) /\
     exists id, valid_id id /\
       target (request_from "localhost:3000" "" "" (GET_users_id (str "user1"))) =
         GET_users_id id /\
       In (FindUnique id) evs).
Proof.
  apply (at_most_one_store_call true sample_env body_accepted
           (request_from "localhost:3000" "" "" (GET_users_id (str "user1"))) []).
  intros q. discriminate.
Defined.

(** X7.  No exception escapes the application: every request ends
    normally.  It is left unanswered (to Express's final handler) only when
    it is admitted and matches no route of the application, or targets
    [/api-docs] while [swagger.yaml] did not load; no error is pending
    then. *)
Theorem server_always_completes sw env req t :
  exists o t',
    server sw env req t = (Normal o, t') /\
    (forall pending, o = Unanswered pending ->
       pending = None /\ allow_rule req /\
       (target req = Unrouted \/ (target req = Any_api_docs /\ sw = false))).
Proof.
  destruct (server_cases sw env req t) as (o & evs & Hs & Hc).
  exists o, (t ++ evs). split; [exact Hs|]. intros pending Ho.
  destruct Hc as [(_ & -> & _) | (Ha & Hc)]; [discriminate Ho|].
  apply admits_spec in Ha.
  destruct Hc as [(id & r & _ & -> & _) | [(q & r & _ & -> & _) | Hc]];
    try discriminate Ho.
  destruct Hc as [(_ & -> & _) | [(_ & _ & -> & _) | Hc]]; try discriminate Ho.
  destruct Hc as [(Ht & Hsw & -> & _) | (Ht & -> & _)];
    injection Ho as <-; auto.
Qed.

(** X8.  A [swagger.yaml] that fails to load costs only the
    documentation route: on every request that does not target [/api-docs]
    the application built without it behaves exactly as the one built with
    it. *)
Theorem swagger_failure_is_local env req t :
  target req <> Any_api_docs ->
  server false env req t = server true env req t.
Proof.
  intros Hn. destruct (admits req) eqn:Ha.
  2:{ now rewrite !server_denied. }
  destruct (target req) as [id | | | q |] eqn:Ht.
  - now rewrite !(server_users _ env req id t Ha Ht).
  - now rewrite !(server_health _ env req t Ha Ht).
  - congruence.
  - now rewrite !(server_graphql _ env req q t Ha Ht).
  - now rewrite !(server_unrouted _ env req t Ha Ht).
Qed.

Lemma swagger_failure_is_local_witness :
  server false sample_env
    (request_from "localhost:3000" "" "" (GET_users_id (str "user1"))) [] =
  server true sample_env
    (request_from "localhost:3000" "" "" (GET_users_id (str "user1"))) [].
Proof.
  apply (swagger_failure_is_local sample_env
           (request_from "localhost:3000" "" "" (GET_users_id (str "user1"))) []).
  discriminate.
Defined.

End ServerMore.

(* ===================================================================== *)
(** * Start-up, seeding and the list query *)

Section StartUp.

(** X9.  [bootstrap] configures the singleton in place.  In a process
    without instance it builds exactly one [App], and the [/graphql] layer
    it adds through the [app] accessor is on the stack that every later
    [App.getInstance] returns, after the constructor's layers; the server
    listens on port 3000.  In a process that already has an instance it
    builds none and appends the layer to that instance's stack. *)
Theorem bootstrap_configures_singleton (p : Process) :
  (App_instance p = None ->
   exists inst,
     App.getInstance (bootstrap p) = (inst, bootstrap p) /\
     App.app inst (bootstrap p) =
       constructed_stack (swagger_yaml p) ++ [use_graphql] /\
     allocated (bootstrap p) = S (allocated p) /\
     listening (bootstrap p) = Some 3000 /\
     (forall r, r <> inst -> heap (bootstrap p) !! r = heap p !! r)) /\
  (forall inst st,
     App_instance p = Some inst -> heap p !! inst = Some st ->
     App.getInstance (bootstrap p) = (inst, bootstrap p) /\
     App.app inst (bootstrap p) = st ++ [use_graphql] /\
     allocated (bootstrap p) = allocated p /\
     listening (bootstrap p) = Some 3000).
Proof.
  split.
  - intros Hnone.
    pose proof (constructor_spec p) as Hc.
    unfold bootstrap, App.getInstance. rewrite Hnone.
    destruct (App.constructor p) as [this p'].
    destruct Hc as (_ & _ & Halloc & _ & _ & Hstack & Hother).
    exists this. unfold App.app, App.listen, App.use.
    cbn [App_instance heap allocated listening].
    split; [reflexivity|]. split; [|split; [exact Halloc|split; [reflexivity|]]].
    + rewrite lookup_alter_eq, Hstack. reflexivity.
    + intros r Hr. rewrite lookup_alter_ne by congruence.
      now apply Hother.
  - intros inst st Hi Hst.
    unfold bootstrap, App.getInstance. rewrite Hi.
    unfold App.app, App.listen, App.use.
    cbn [App_instance heap allocated listening]. rewrite Hi.
    split; [reflexivity|]. split; [|split; reflexivity].
    rewrite lookup_alter_eq, Hst. reflexivity.
Qed.

Lemma bootstrap_configures_singleton_witness :
  (exists inst,
     App.getInstance (bootstrap (start false)) = (inst, bootstrap (start false)) /\
     App.app inst (bootstrap (start false)) =
       [use_json; use_domainRestriction; use_users; get_health; use_errorHandler;
        use_graphql] /\
     allocated (bootstrap (start false)) = 1%nat /\
     listening (bootstrap (start false)) = Some 3000 /\
     (forall r, r <> inst ->
        heap (bootstrap (start false)) !! r = heap (start false) !! r)) /\
  App.app 0%nat (bootstrap (bootstrap (start false))) =
    [use_json; use_domainRestriction; use_users; get_health; use_errorHandler;
     use_graphql; use_graphql].
Proof.
  split.
  - exact (proj1 (bootstrap_configures_singleton (start false)) eq_refl).
  - refine (proj1 (proj2 (proj2 (bootstrap_configures_singleton
                                   (bootstrap (start false)))
                            0%nat
                            [use_json; use_domainRestriction; use_users;
                             get_health; use_errorHandler; use_graphql]
                            eq_refl _))).
    vm_compute. reflexivity.
Defined.

(** The table [create_all] leaves when no key is taken. *)
Lemma create_all_fresh (ds : list User) (tbl : gmap (list N) (list N)) :
  NoDup (id <$> ds) ->
  (forall d, d ∈ ds -> tbl !! id d = None) ->
  seed.create_all ds tbl =
  (Normal ds, list_to_map ((fun d => (id d, name d)) <$> ds) ∪ tbl).
Proof.
  revert tbl. induction ds as [|d ds IH]; intros tbl Hnd Hfree.
  - cbn. now rewrite (left_id_L ∅ (∪)).
  - rewrite fmap_cons in Hnd. apply NoDup_cons in Hnd as [Hd Hnd].
    cbn [seed.create_all]. unfold seed.create.
    rewrite (Hfree d) by apply list_elem_of_here.
    rewrite IH; [| exact Hnd |].
    + f_equal. rewrite fmap_cons, list_to_map_cons. cbn [fst snd].
      rewrite <- insert_union_l. symmetry. apply insert_union_r.
      apply not_elem_of_list_to_map_1.
      rewrite <- list_fmap_compose. exact Hd.
    + intros d' Hd'. rewrite lookup_insert_ne.
      * apply Hfree. now apply list_elem_of_further.
      * intros E. apply Hd. rewrite E. now apply list_elem_of_fmap_2.
Qed.

(** A taken key makes [create_all] fail. *)
Lemma create_all_conflict (ds : list User) (tbl : gmap (list N) (list N)) d :
  In d ds -> is_Some (tbl !! id d) ->
  exists e, fst (seed.create_all ds tbl) = Throw e.
Proof.
  revert tbl. induction ds as [|d0 ds IH]; intros tbl Hin Hk; [destruct Hin|].
  cbn [seed.create_all]. unfold seed.create at 1.
  destruct (tbl !! id d0) as [n|] eqn:E0.
  - destruct (seed.create_all ds tbl) as [cs tbl2]. cbn. eauto.
  - destruct Hin as [-> | Hin]; [rewrite E0 in Hk; now destruct Hk|].
    destruct (IH (<[id d0 := name d0]> tbl) Hin) as [e He].
    + destruct (decide (id d0 = id d)) as [Heq | Hne].
      * rewrite Heq, lookup_insert_eq. eauto.
      * now rewrite lookup_insert_ne.
    + destruct (seed.create_all ds (<[id d0 := name d0]> tbl)) as [cs tbl2].
      cbn in He. subst cs. cbn. eauto.
Qed.

(** X10.  The seed script can be run on any table, any number of
    times: since it empties the table first, none of its [create] calls
    hits the unique constraint, in whatever order the three calls are
    executed, and the table ends up holding exactly the three sample users.
    Without the [deleteMany], creating the samples in a table that already
    holds one of their ids fails. *)
Theorem seed_is_rerunnable (tbl : gmap (list N) (list N)) :
  seed.main tbl = (Normal seed.data, user seeded) /\
  seed.main (snd (seed.main tbl)) = seed.main tbl /\
  (forall order, Permutation order seed.data ->
     seed.create_all order (seed.deleteMany tbl) = (Normal order, user seeded)) /\
  (forall d, In d seed.data -> is_Some (tbl !! id d) ->
     exists e, fst (seed.create_all seed.data tbl) = Throw e).
Proof.
  assert (Hnd : NoDup (id <$> seed.data)).
  { apply NoDup_ListNoDup. repeat constructor; cbn; intuition discriminate. }
  assert (Hperm : forall order, Permutation order seed.data ->
            seed.create_all order ∅ = (Normal order, user seeded)).
  { intros order Hp. rewrite create_all_fresh.
    - f_equal. rewrite (right_id_L ∅ (∪)).
      transitivity (list_to_map (M := gmap (list N) (list N))
                      ((fun d => (id d, name d)) <$> seed.data)).
      + apply list_to_map_proper.
        * rewrite <- list_fmap_compose.
          change (NoDup (id <$> order)). now rewrite Hp.
        * now apply fmap_Permutation.
      + reflexivity.
    - now rewrite Hp.
    - intros d _. apply lookup_empty. }
  assert (Hmain : forall tb, seed.main tb = (Normal seed.data, user seeded)).
  { intros tb. apply Hperm. reflexivity. }
  split; [apply Hmain|]. split; [now rewrite !Hmain|].
  split; [exact Hperm|].
  intros d Hin Hk. now apply (create_all_conflict _ _ d).
Qed.

Lemma seed_is_rerunnable_witness :
  seed.create_all
    [ mkUser (str "user3") (str "Bob Wilson");
      mkUser (str "user1") (str "John Doe");
      mkUser (str "user2") (str "Jane Smith") ]
    (seed.deleteMany (user seeded)) =
  (Normal
     [ mkUser (str "user3") (str "Bob Wilson");
       mkUser (str "user1") (str "John Doe");
       mkUser (str "user2") (str "Jane Smith") ],
   user seeded) /\
  exists e, fst (seed.create_all seed.data (user seeded)) = Throw e.
Proof.
  split.
  - apply (proj1 (proj2 (proj2 (seed_is_rerunnable (user seeded))))).
    unfold seed.data.
    apply (Permutation_cons_app [_; _] []).
    reflexivity.
  - apply (proj2 (proj2 (proj2 (seed_is_rerunnable (user seeded))))
             (mkUser (str "user1") (str "John Doe"))).
    + now left.
    + vm_compute. eauto.
Defined.

End StartUp.
